(** * Available-quantity data loader (saleor/graphql/warehouse/dataloaders.py)

    A shallow embedding of
    [AvailableQuantityByProductVariantIdAndShippingZoneCodeLoader]: the two
    methods [batch_load] and [batch_load_shipping_zone], the Python
    dictionaries they build and the Django queryset they run, followed by the
    properties of the loader.

    Conventions.
    - Python [int] is [Z]; [Optional[str]] is [option string].
    - A Python [dict] keeps insertion order, so it is an association list with
      pairwise distinct keys; a [defaultdict] is the same list read through
      [defaultdict_getitem], which stores the default on a miss.
    - A computation that may raise and that may hit the database is a function
      from the log of executed queries to [option (result * log)]; [None]
      stands for a raised exception. *)

From Stdlib Require Import ZArith Lia.
From stdpp Require Import base option list numbers strings.

Local Open Scope Z_scope.

(** ** Python dictionaries *)

Section dict.
Context {K V : Type} `{EqDecision K}.

(** [d.get(k)] without a default: [None] when [k] is not a key. *)
Fixpoint dict_get (d : list (K * V)) (k : K) : option V :=
  match d with
  | [] => None
  | (k', v) :: d' => if decide (k = k') then Some v else dict_get d' k
  end.

(** [d[k] = v]: an existing key keeps its position, a new key goes last. *)
Fixpoint dict_set (d : list (K * V)) (k : K) (v : V) : list (K * V) :=
  match d with
  | [] => [(k, v)]
  | (k', v') :: d' =>
      if decide (k = k') then (k', v) :: d' else (k', v') :: dict_set d' k v
  end.

Definition dict_keys (d : list (K * V)) : list K := d.*1.
Definition dict_values (d : list (K * V)) : list V := d.*2.
Definition dict_items (d : list (K * V)) : list (K * V) := d.

(** [d[k]] on a [defaultdict(lambda: dflt)]: a miss stores [dflt] under [k]
    and returns it.  The dictionary after the read is returned as well. *)
Definition defaultdict_getitem (dflt : V) (d : list (K * V)) (k : K)
  : V * list (K * V) :=
  match dict_get d k with
  | Some v => (v, d)
  | None => (dflt, dict_set d k dflt)
  end.

(** [[d[k] for k in ks]] on a [defaultdict]; the reads are threaded because
    each miss mutates [d]. *)
Fixpoint defaultdict_getitems (dflt : V) (d : list (K * V)) (ks : list K)
  : list V * list (K * V) :=
  match ks with
  | [] => ([], d)
  | k :: ks' =>
      let '(v, d1) := defaultdict_getitem dflt d k in
      let '(vs, d2) := defaultdict_getitems dflt d1 ks' in
      (v :: vs, d2)
  end.

(** Keys are pairwise distinct. *)
Definition dict_wf (d : list (K * V)) : Prop := NoDup (dict_keys d).
End dict.

Abbreviation dict K V := (list (K * V)) (only parsing).

(** [d[k] += q] on a [defaultdict(int)]: read (a miss stores 0), add, write. *)
Definition defaultdict_iadd {K} `{EqDecision K} (d : dict K Z) (k : K) (q : Z)
  : dict K Z :=
  let '(old, d1) := defaultdict_getitem 0 d k in
  dict_set d1 k (old + q).

(** ** The stock table and Django querysets *)

(** One row of [Stock] joined (left outer) with the shipping zones of its
    warehouse, carrying the [available_quantity] annotation.  The model class
    and [annotate_available_quantity] live in [saleor.warehouse.models]; the
    loader only reads these four columns.  A warehouse without shipping zone
    yields a row whose zone columns are NULL. *)
Record StockRow := {
  product_variant_id : Z;
  warehouse__shipping_zones : option Z;
  warehouse__shipping_zones__name : option string;
  available_quantity : Z
}.

(** The keyword arguments the loader passes to [QuerySet.filter]. *)
Inductive Lookup :=
| product_variant_id__in (variant_ids : list Z)
| warehouse__shipping_zones__name_eq (name : string).

(** A queryset is the conjunction of the lookups applied so far.  It is an
    immutable description: nothing reaches the database until it is iterated. *)
Definition QuerySet := list Lookup.

Definition Stock_objects : QuerySet := [].

(** [qs.filter(lookup)] returns a new queryset and leaves [qs] as it was. *)
Definition qs_filter (qs : QuerySet) (c : Lookup) : QuerySet := qs ++ [c].

Definition lookup_holds (c : Lookup) (r : StockRow) : bool :=
  match c with
  | product_variant_id__in variant_ids =>
      bool_decide (product_variant_id r ∈ variant_ids)
  | warehouse__shipping_zones__name_eq name =>
      bool_decide (warehouse__shipping_zones__name r = Some name)
  end.

Definition qs_holds (qs : QuerySet) (r : StockRow) : bool :=
  forallb (λ c, lookup_holds c r) qs.

(** What [values_list("product_variant_id", "warehouse__shipping_zones",
    "available_quantity")] yields for a row. *)
Abbreviation RawRecord := (Z * option Z * Z)%type.

Definition values_list_row (r : StockRow) : RawRecord :=
  (product_variant_id r, warehouse__shipping_zones r, available_quantity r).

(** The rows a queryset selects from the table, as [values_list] tuples. *)
Definition qs_rows (store : list StockRow) (qs : QuerySet) : list RawRecord :=
  values_list_row <$> List.filter (qs_holds qs) store.

(** ** Computations: query log and exceptions *)

Definition Log := list QuerySet.

Definition M (A : Type) : Type := Log → option (A * Log).

Definition ret {A} (a : A) : M A := λ log, Some (a, log).

Definition bind {A B} (m : M A) (k : A → M B) : M B :=
  λ log, match m log with
         | Some (a, log') => k a log'
         | None => None
         end.

Notation "x <- m ;; k" := (bind m (λ x, k))
  (at level 100, m at next level, right associativity).

(** [raise ValueError] and the like. *)
Definition raise {A} : M A := λ _, None.

(** An [__in] lookup over an empty list can match no row.  Django finds this
    out while it compiles the query ([EmptyResultSet]) and then yields no row
    without sending anything to the database. *)
Definition matches_nothing (qs : QuerySet) : bool :=
  existsb (λ c, match c with
                | product_variant_id__in [] => true
                | _ => false
                end) qs.

(** Iterating a queryset runs it: one entry in the query log, unless the
    queryset is known to match nothing. *)
Definition iterate (store : list StockRow) (qs : QuerySet) : M (list RawRecord) :=
  λ log, if matches_nothing qs then Some ([], log)
         else Some (qs_rows store qs, log ++ [qs]).

(** [for x in xs: s = body(s, x)]. *)
Fixpoint for_each {A S} (xs : list A) (body : S → A → M S) (s : S) : M S :=
  match xs with
  | [] => ret s
  | x :: xs' => s' <- body s x ;; for_each xs' body s'
  end.

(** Python's [max] of an iterable of ints; [ValueError] on an empty one. *)
Definition py_max (xs : list Z) : M Z :=
  match xs with
  | [] => raise
  | x :: xs' => ret (fold_left Z.max xs' x)
  end.

(** Truth value of an [Optional[str]]: [None] and the empty string are false. *)
Definition truthy (s : option string) : bool :=
  match s with
  | None => false
  | Some name => negb (bool_decide (name = EmptyString))
  end.

(** ** The loader *)

Abbreviation ShippingZone := (option string).
Abbreviation VariantIdAndShippingZone := (Z * ShippingZone)%type.

(** Lines 29-31: [variants_by_shipping_zone[shipping_zone].append(variant_id)].
    The list object stored in the dictionary is the one appended to. *)
Definition append_variant (variants_by_shipping_zone : dict ShippingZone (list Z))
    (key : VariantIdAndShippingZone) : dict ShippingZone (list Z) :=
  let '(variant_id, shipping_zone) := key in
  let '(variant_ids, d) :=
    defaultdict_getitem [] variants_by_shipping_zone shipping_zone in
  dict_set d shipping_zone (variant_ids ++ [variant_id]).

Definition split_by_shipping_zone (keys : list VariantIdAndShippingZone)
  : dict ShippingZone (list Z) :=
  fold_left append_variant keys [].

(** Lines 62-65:
    [quantity_by_shipping_zone_by_product_variant[variant_id][shipping_zone_id] += quantity]
    on a [defaultdict(lambda: defaultdict(int))]. *)
Definition add_quantity (by_variant : dict Z (dict (option Z) Z))
    (record : RawRecord) : dict Z (dict (option Z) Z) :=
  let '(variant_id, shipping_zone_id, quantity) := record in
  let '(by_zone, d) := defaultdict_getitem [] by_variant variant_id in
  dict_set d variant_id (defaultdict_iadd by_zone shipping_zone_id quantity).

Definition quantity_by_shipping_zone_by_product_variant (results : list RawRecord)
  : dict Z (dict (option Z) Z) :=
  fold_left add_quantity results [].

(** Lines 66-71: [quantity_map[variant_id] = max(quantity_by_shipping_zone.values())]. *)
Definition set_max (quantity_map : dict Z Z) (item : Z * dict (option Z) Z)
  : M (dict Z Z) :=
  let '(variant_id, quantity_by_shipping_zone) := item in
  m <- py_max (dict_values quantity_by_shipping_zone) ;;
  ret (dict_set quantity_map variant_id m).

(** Lines 59-71: the two-level aggregation of the fetched records. *)
Definition quantity_map_of (results : list RawRecord) : M (dict Z Z) :=
  for_each (dict_items (quantity_by_shipping_zone_by_product_variant results))
           set_max [].

(** Lines 75-81: [(variant_id, min(quantity_map[variant_id], MAX))] for each
    requested id; [quantity_map] is a [defaultdict(int)]. *)
Fixpoint capped_quantities (MAX_CHECKOUT_LINE_QUANTITY : Z)
    (quantity_map : dict Z Z) (variant_ids : list Z) : list (Z * Z) * dict Z Z :=
  match variant_ids with
  | [] => ([], quantity_map)
  | variant_id :: rest =>
      let '(quantity, quantity_map1) :=
        defaultdict_getitem 0 quantity_map variant_id in
      let '(out, quantity_map2) :=
        capped_quantities MAX_CHECKOUT_LINE_QUANTITY quantity_map1 rest in
      ((variant_id, Z.min quantity MAX_CHECKOUT_LINE_QUANTITY) :: out,
       quantity_map2)
  end.

Section Loader.
(** The table behind [Stock.objects] and [settings.MAX_CHECKOUT_LINE_QUANTITY]. *)
Variable store : list StockRow.
Variable MAX_CHECKOUT_LINE_QUANTITY : Z.

(** Line 48. *)
Definition stock_for_variants (variant_ids : list Z) : QuerySet :=
  qs_filter Stock_objects (product_variant_id__in variant_ids).

(** Line 50: the queryset [results.filter(...)] evaluates to. *)
Definition restricted_to_zone (results : QuerySet) (shipping_zone : ShippingZone)
  : QuerySet :=
  match shipping_zone with
  | Some name => qs_filter results (warehouse__shipping_zones__name_eq name)
  | None => results
  end.

Definition batch_load_shipping_zone (shipping_zone : ShippingZone)
    (variant_ids : list Z) : M (list (Z * Z)) :=
  let results := stock_for_variants variant_ids in
  (* lines 49-50: the value of [results.filter(...)] is not bound to
     anything, and [results] itself is not changed by the call *)
  let _unbound :=
    if truthy shipping_zone
    then Some (restricted_to_zone results shipping_zone) else None in
  (* lines 51-54 and the iteration of line 62 *)
  results <- iterate store results ;;
  quantity_map <- quantity_map_of results ;;
  ret (capped_quantities MAX_CHECKOUT_LINE_QUANTITY quantity_map variant_ids).1.

(** Lines 39-41. *)
Definition store_quantity (shipping_zone : ShippingZone)
    (by_key : dict VariantIdAndShippingZone Z) (entry : Z * Z)
  : dict VariantIdAndShippingZone Z :=
  let '(variant_id, quantity) := entry in
  dict_set by_key (variant_id, shipping_zone) quantity.

(** Lines 37-41: the body of the loop over [variants_by_shipping_zone.items()]. *)
Definition load_zone (by_key : dict VariantIdAndShippingZone Z)
    (item : ShippingZone * list Z) : M (dict VariantIdAndShippingZone Z) :=
  let '(shipping_zone, variant_ids) := item in
  quantities <- batch_load_shipping_zone shipping_zone variant_ids ;;
  ret (fold_left (store_quantity shipping_zone) quantities by_key).

Definition batch_load (keys : list VariantIdAndShippingZone) : M (list Z) :=
  let variants_by_shipping_zone := split_by_shipping_zone keys in
  quantity_by_variant_and_shipping_zone <-
    for_each (dict_items variants_by_shipping_zone) load_zone [] ;;
  ret (defaultdict_getitems 0 quantity_by_variant_and_shipping_zone keys).1.
End Loader.

(** The queries one call of [batch_load_shipping_zone] sends: one for the
    requested ids, none when no id is requested. *)
Definition zone_load_queries (variant_ids : list Z) : Log :=
  match variant_ids with
  | [] => []
  | _ :: _ => [stock_for_variants variant_ids]
  end.

(** The queries a batch sends, in order: one per entry of the split. *)
Definition batch_queries (keys : list VariantIdAndShippingZone) : Log :=
  (λ item, stock_for_variants item.2) <$> dict_items (split_by_shipping_zone keys).

(** ** The aggregation in the words of the specification *)

Definition record_item (r : RawRecord) : Z := r.1.1.
Definition record_subgroup (r : RawRecord) : option Z := r.1.2.
Definition record_quantity (r : RawRecord) : Z := r.2.
Definition record_pair (r : RawRecord) : Z * option Z := r.1.

Definition Zsum (xs : list Z) : Z := foldr Z.add 0 xs.

(** The records of an item, and those of one (item, subgroup) pair. *)
Definition records_of_item (records : list RawRecord) (item : Z) : list RawRecord :=
  filter (λ r, record_item r = item) records.

Definition records_of_pair (records : list RawRecord) (item : Z)
    (subgroup : option Z) : list RawRecord :=
  filter (λ r, record_item r = item ∧ record_subgroup r = subgroup) records.

(** First level: the sum of Quantity over the records sharing the pair. *)
Definition subgroup_sum (records : list RawRecord) (item : Z)
    (subgroup : option Z) : Z :=
  Zsum (record_quantity <$> records_of_pair records item subgroup).

(** The subgroup sums of an item, one per record of the item (a subgroup with
    several records is listed several times, which a maximum does not see). *)
Definition subgroup_sums (records : list RawRecord) (item : Z) : list Z :=
  (λ r, subgroup_sum records item (record_subgroup r)) <$> records_of_item records item.

(** [m] is the maximum of [xs]. *)
Definition is_max_of (m : Z) (xs : list Z) : Prop :=
  m ∈ xs ∧ ∀ x, x ∈ xs → x ≤ m.

(** Second level: the maximum of the subgroup sums; no value for an item
    without record. *)
Definition spec_aggregated_value (records : list RawRecord) (item : Z) : option Z :=
  match subgroup_sums records item with
  | [] => None
  | x :: xs => Some (foldr Z.max x xs)
  end.

(** The value the loader is expected to hand out for an item: the aggregated
    value over all rows of the item, zero without rows, capped. *)
Definition capped_value (store : list StockRow) (cap : Z) (item : Z) : Z :=
  Z.min (default 0 (spec_aggregated_value (values_list_row <$> store) item)) cap.

(** The partition the specification describes, read off the key list: the
    item ids requested under a qualifier, in request order. *)
Definition requested_under (keys : list VariantIdAndShippingZone)
    (shipping_zone : ShippingZone) : list Z :=
  (filter (λ key, key.2 = shipping_zone) keys).*1.

(** ** Sample data *)

Definition row (variant_id : Z) (zone_id : Z) (zone_name : string) (quantity : Z)
  : StockRow :=
  {| product_variant_id := variant_id;
     warehouse__shipping_zones := Some zone_id;
     warehouse__shipping_zones__name := Some zone_name;
     available_quantity := quantity |}.

(** Item 1 in two subgroups of qualifier Q: 5 + 3 in subgroup 1, 4 in subgroup 2. *)
Definition store_Q : list StockRow :=
  [row 1 1 "Q" 5; row 1 1 "Q" 3; row 1 2 "Q" 4].

(** Item 1 stocked in an EU zone and in a US zone. *)
Definition store_EU_US : list StockRow :=
  [row 1 10 "EU" 5; row 1 20 "US" 7].

(** Item 1 stocked in an EU zone only, as in [store_EU_US]. *)
Definition store_EU : list StockRow := [row 1 10 "EU" 5].

(** Item 1 stocked in a US zone only. *)
Definition store_US : list StockRow := [row 1 20 "US" 7].

(** ** Order of first occurrence *)

(** The distinct elements of a list, each at the place of its first
    occurrence. *)
Fixpoint first_occurrences {A} `{EqDecision A} (l : list A) : list A :=
  match l with
  | [] => []
  | x :: l' => x :: filter (λ y, y ≠ x) (first_occurrences l')
  end.

(** * Properties *)

(** ** Dictionaries *)

Section dict_facts.
Context {K V : Type} `{EqDecision K}.
Implicit Types (d : list (K * V)) (k : K) (v : V).

Lemma dict_get_set d k k' v :
  dict_get (dict_set d k v) k' = if decide (k' = k) then Some v else dict_get d k'.
Proof.
  induction d as [|[k0 v0] d IH]; simpl.
  - by destruct (decide (k' = k)).
  - destruct (decide (k = k0)) as [->|Hne]; simpl.
    + by destruct (decide (k' = k0)).
    + rewrite IH. destruct (decide (k' = k0)) as [->|]; [|done].
      by rewrite decide_False.
Qed.

Lemma dict_get_set_eq d k v : dict_get (dict_set d k v) k = Some v.
Proof. by rewrite dict_get_set, decide_True. Qed.

Lemma dict_get_set_ne d k k' v :
  k' ≠ k → dict_get (dict_set d k v) k' = dict_get d k'.
Proof. intros. by rewrite dict_get_set, decide_False. Qed.

Lemma dict_get_None d k : dict_get d k = None ↔ k ∉ dict_keys d.
Proof.
  unfold dict_keys. induction d as [|[k0 v0] d IH]; simpl.
  - split; [intros _; apply not_elem_of_nil | done].
  - rewrite not_elem_of_cons. destruct (decide (k = k0)); [|tauto].
    split; [done|]. by intros [? _].
Qed.

Lemma dict_get_is_Some d k : is_Some (dict_get d k) ↔ k ∈ dict_keys d.
Proof.
  rewrite <- not_eq_None_Some, dict_get_None.
  split; [apply dec_stable | auto].
Qed.

Lemma dict_get_Some_elem d k v : dict_get d k = Some v → (k, v) ∈ d.
Proof.
  induction d as [|[k0 v0] d IH]; simpl; [done|].
  destruct (decide (k = k0)) as [->|]; intros ?; simplify_eq.
  - left.
  - right. auto.
Qed.

Lemma dict_elem_get d k v : dict_wf d → (k, v) ∈ d → dict_get d k = Some v.
Proof.
  unfold dict_wf, dict_keys. induction d as [|[k0 v0] d IH]; simpl.
  - intros _ H0. by apply elem_of_nil in H0.
  - rewrite NoDup_cons. intros [Hk Hd] [Heq|Hin]%elem_of_cons.
    + simplify_eq. by rewrite decide_True.
    + rewrite decide_False; [auto|].
      intros ->. apply Hk. apply list_elem_of_fmap. by exists (k0, v).
Qed.

Lemma dict_set_fresh d k v : dict_get d k = None → dict_set d k v = d ++ [(k, v)].
Proof.
  induction d as [|[k0 v0] d IH]; simpl; [done|].
  destruct (decide (k = k0)); [done|]. intros ?. f_equal. auto.
Qed.

Lemma dict_keys_set_present d k v :
  is_Some (dict_get d k) → dict_keys (dict_set d k v) = dict_keys d.
Proof.
  unfold dict_keys. induction d as [|[k0 v0] d IH]; simpl.
  - by intros [? ?].
  - destruct (decide (k = k0)); simpl; [done|]. intros ?. f_equal. auto.
Qed.

Lemma dict_wf_nil : dict_wf (@nil (K * V)).
Proof. apply NoDup_nil_2. Qed.

Lemma dict_wf_set d k v : dict_wf d → dict_wf (dict_set d k v).
Proof.
  intros Hwf. destruct (dict_get d k) as [v0|] eqn:Hget.
  - unfold dict_wf. by rewrite dict_keys_set_present by eauto.
  - rewrite dict_set_fresh by done. unfold dict_wf, dict_keys.
    rewrite fmap_app. simpl. apply NoDup_app. split; [done|].
    split; [|apply NoDup_singleton].
    intros k' Hk' ->%list_elem_of_singleton.
    by apply dict_get_None in Hget.
Qed.

(** A read through a [defaultdict] never changes what later reads see. *)
Lemma defaultdict_getitem_fst dflt d k :
  (defaultdict_getitem dflt d k).1 = default dflt (dict_get d k).
Proof. unfold defaultdict_getitem. by destruct (dict_get d k). Qed.

Lemma defaultdict_getitem_snd dflt d k k' :
  default dflt (dict_get (defaultdict_getitem dflt d k).2 k')
  = default dflt (dict_get d k').
Proof.
  unfold defaultdict_getitem. destruct (dict_get d k) eqn:Hget; simpl; [done|].
  rewrite dict_get_set. destruct (decide (k' = k)) as [->|]; [|done].
  by rewrite Hget.
Qed.

Lemma defaultdict_getitems_fst dflt d ks :
  (defaultdict_getitems dflt d ks).1 = (λ k, default dflt (dict_get d k)) <$> ks.
Proof.
  revert d. induction ks as [|k ks IH]; intros d; simpl; [done|].
  pose proof (defaultdict_getitem_fst dflt d k) as H1.
  pose proof (defaultdict_getitem_snd dflt d k) as H2.
  destruct (defaultdict_getitem dflt d k) as [v d1]. simpl in *.
  specialize (IH d1). destruct (defaultdict_getitems dflt d1 ks) as [vs d2].
  simpl in *. rewrite H1, IH. f_equal.
  apply list_fmap_ext. intros i k' Hi. apply H2.
Qed.
End dict_facts.

(** ** Splitting the keys by shipping zone (lines 29-31) *)

Section split_facts.
Implicit Types (keys : list VariantIdAndShippingZone) (z : ShippingZone).
Implicit Types (d : list (ShippingZone * list Z)).

Lemma append_variant_get d v z z' :
  dict_get (append_variant d (v, z)) z'
  = if decide (z' = z) then Some (default [] (dict_get d z) ++ [v])
    else dict_get d z'.
Proof.
  unfold append_variant, defaultdict_getitem.
  destruct (dict_get d z) eqn:Hget; simpl; rewrite !dict_get_set;
    destruct (decide (z' = z)); done.
Qed.

Lemma append_variant_wf d key : dict_wf d → dict_wf (append_variant d key).
Proof.
  destruct key as [v z]. unfold append_variant, defaultdict_getitem.
  destruct (dict_get d z); auto using dict_wf_set.
Qed.

Lemma split_by_shipping_zone_snoc keys key :
  split_by_shipping_zone (keys ++ [key])
  = append_variant (split_by_shipping_zone keys) key.
Proof. unfold split_by_shipping_zone. by rewrite fold_left_app. Qed.

Lemma requested_under_snoc keys v z z' :
  requested_under (keys ++ [(v, z)]) z'
  = requested_under keys z' ++ (if decide (z' = z) then [v] else []).
Proof.
  unfold requested_under. rewrite filter_app, fmap_app. f_equal.
  rewrite filter_cons. simpl.
  destruct (decide (z = z')), (decide (z' = z)); done.
Qed.

Lemma elem_of_requested_under keys v z :
  v ∈ requested_under keys z ↔ (v, z) ∈ keys.
Proof.
  unfold requested_under. rewrite list_elem_of_fmap. split.
  - intros ([v' z'] & -> & [Hz Hin]%list_elem_of_filter). simpl in *. by subst.
  - intros Hin. exists (v, z). split; [done|]. by apply list_elem_of_filter.
Qed.

Lemma requested_under_absent keys z : z ∉ keys.*2 → requested_under keys z = [].
Proof.
  intros Hz. destruct (requested_under keys z) as [|v ids] eqn:Heq; [done|].
  destruct Hz. apply list_elem_of_fmap. exists (v, z). split; [done|].
  apply elem_of_requested_under. rewrite Heq. left.
Qed.

(** The dictionary built by the loop holds, under every requested zone, the
    ids requested with it, in request order and with repetitions. *)
Lemma split_by_shipping_zone_get keys z :
  dict_get (split_by_shipping_zone keys) z
  = if decide (z ∈ keys.*2) then Some (requested_under keys z) else None.
Proof.
  induction keys as [|[v z0] keys IH] using rev_ind.
  - done.
  - rewrite split_by_shipping_zone_snoc, append_variant_get.
    rewrite requested_under_snoc, fmap_app. simpl.
    destruct (decide (z = z0)) as [->|Hne].
    + assert (z0 ∈ keys.*2 ++ [z0]) as Hz0 by (apply elem_of_app; right; left).
      rewrite decide_True by exact Hz0.
      rewrite IH. destruct (decide (z0 ∈ keys.*2)); simpl; [done|].
      by rewrite requested_under_absent.
    + rewrite IH, app_nil_r.
      destruct (decide (z ∈ keys.*2)) as [Hin|Hnin].
      * rewrite decide_True; [done|]. apply elem_of_app. by left.
      * rewrite decide_False; [done|].
        rewrite elem_of_app, list_elem_of_singleton. intros [?|?]; done.
Qed.

Lemma split_by_shipping_zone_wf keys : dict_wf (split_by_shipping_zone keys).
Proof.
  induction keys as [|key keys IH] using rev_ind.
  - apply dict_wf_nil.
  - rewrite split_by_shipping_zone_snoc. by apply append_variant_wf.
Qed.

Lemma split_by_shipping_zone_keys keys z :
  z ∈ dict_keys (split_by_shipping_zone keys) ↔ z ∈ keys.*2.
Proof.
  rewrite <- dict_get_is_Some, split_by_shipping_zone_get.
  destruct (decide (z ∈ keys.*2)); split; intros Hz; try done.
Qed.

Lemma split_by_shipping_zone_items keys z ids :
  (z, ids) ∈ dict_items (split_by_shipping_zone keys) →
  z ∈ keys.*2 ∧ ids = requested_under keys z.
Proof.
  unfold dict_items. intros Hin.
  apply dict_elem_get in Hin; [|apply split_by_shipping_zone_wf].
  rewrite split_by_shipping_zone_get in Hin.
  destruct (decide (z ∈ keys.*2)); by simplify_eq.
Qed.

(** One dictionary entry per distinct zone of the key list. *)
Lemma split_by_shipping_zone_length keys :
  length (dict_items (split_by_shipping_zone keys))
  = length (remove_dups keys.*2).
Proof.
  transitivity (length (dict_keys (split_by_shipping_zone keys))).
  { unfold dict_keys, dict_items. by rewrite length_fmap. }
  apply Permutation_length, NoDup_Permutation.
  - apply split_by_shipping_zone_wf.
  - apply NoDup_remove_dups.
  - intros z. by rewrite split_by_shipping_zone_keys, elem_of_remove_dups.
Qed.
End split_facts.

(** ** Maxima and sums *)

Lemma is_max_of_unique m m' xs ys :
  is_max_of m xs → is_max_of m' ys → (∀ y, y ∈ xs ↔ y ∈ ys) → m = m'.
Proof.
  intros [Hm Hle] [Hm' Hle'] Hiff.
  apply Hiff in Hm. apply Hle' in Hm. apply Hiff in Hm'. apply Hle in Hm'. lia.
Qed.

Lemma fold_left_max_is_max xs x : is_max_of (fold_left Z.max xs x) (x :: xs).
Proof.
  revert x. induction xs as [|a xs IH]; intros x; simpl.
  - split; [left|]. intros y ->%list_elem_of_singleton. lia.
  - destruct (IH (Z.max x a)) as [Hin Hle]. split.
    + apply elem_of_cons in Hin as [Heq|Hin].
      * rewrite Heq. destruct (Z.max_spec x a) as [[_ ->]|[_ ->]];
          [right; left | left].
      * do 2 right. done.
    + intros y Hy. assert (Z.max x a ≤ fold_left Z.max xs (Z.max x a))
        by (apply Hle; left).
      apply elem_of_cons in Hy as [->|Hy]; [lia|].
      apply elem_of_cons in Hy as [->|Hy]; [lia|].
      apply Hle. by right.
Qed.

Lemma foldr_max_is_max xs x : is_max_of (foldr Z.max x xs) (x :: xs).
Proof.
  induction xs as [|a xs [Hin Hle]]; simpl.
  - split; [left|]. intros y ->%list_elem_of_singleton. lia.
  - split.
    + destruct (Z.max_spec a (foldr Z.max x xs)) as [[_ ->]|[_ ->]].
      * apply elem_of_cons in Hin as [->|Hin]; [left | do 2 right; done].
      * right; left.
    + intros y Hy. assert (x ≤ foldr Z.max x xs) by (apply Hle; left).
      apply elem_of_cons in Hy as [->|Hy]; [lia|].
      apply elem_of_cons in Hy as [->|Hy]; [lia|].
      assert (y ≤ foldr Z.max x xs) by (apply Hle; by right). lia.
Qed.

Lemma py_max_is_max xs log :
  xs ≠ [] → ∃ m, py_max xs log = Some (m, log) ∧ is_max_of m xs.
Proof.
  destruct xs as [|x xs]; [done|]. intros _. eexists. split; [done|].
  apply fold_left_max_is_max.
Qed.

Lemma Zsum_snoc xs x : Zsum (xs ++ [x]) = Zsum xs + x.
Proof. unfold Zsum. induction xs as [|a xs IH]; simpl; lia. Qed.

Lemma Zsum_nonneg xs : (∀ x, x ∈ xs → 0 ≤ x) → 0 ≤ Zsum xs.
Proof.
  unfold Zsum. induction xs as [|a xs IH]; simpl; intros Hall; [lia|].
  assert (0 ≤ a) by (apply Hall; left).
  assert (0 ≤ foldr Z.add 0 xs) by (apply IH; intros; apply Hall; by right).
  lia.
Qed.

(** ** The specification's aggregation *)

Section spec_facts.
Implicit Types (records : list RawRecord) (r : RawRecord).

Lemma subgroup_sum_snoc records r v s :
  subgroup_sum (records ++ [r]) v s
  = subgroup_sum records v s
    + (if decide (record_pair r = (v, s)) then record_quantity r else 0).
Proof.
  unfold subgroup_sum, records_of_pair. rewrite filter_app, fmap_app.
  destruct r as [[v0 s0] q0]. rewrite filter_cons. unfold record_pair. simpl.
  destruct (decide ((v0, s0) = (v, s))) as [Heq|Hne].
  - simplify_eq. rewrite decide_True by done. simpl. by rewrite Zsum_snoc.
  - rewrite decide_False by (intros [? ?]; simplify_eq/=; done).
    rewrite filter_nil. simpl. rewrite app_nil_r. lia.
Qed.

Lemma subgroup_sum_absent records v s :
  (v, s) ∉ record_pair <$> records → subgroup_sum records v s = 0.
Proof.
  intros Hnin. unfold subgroup_sum, records_of_pair.
  destruct (filter _ records) as [|r rs] eqn:Heq; [done|].
  destruct Hnin. assert (r ∈ filter (λ r, record_item r = v ∧ record_subgroup r = s) records)
    as [[Hv Hs] Hin]%list_elem_of_filter by (rewrite Heq; left).
  apply list_elem_of_fmap. exists r. split; [|done].
  destruct r as [[? ?] ?]. unfold record_item, record_subgroup in *.
  by simplify_eq/=.
Qed.

Lemma elem_of_subgroup_sums records v y :
  y ∈ subgroup_sums records v
  ↔ ∃ s, (v, s) ∈ record_pair <$> records ∧ y = subgroup_sum records v s.
Proof.
  unfold subgroup_sums, records_of_item. rewrite list_elem_of_fmap. split.
  - intros (r & -> & [Hv Hin]%list_elem_of_filter).
    exists (record_subgroup r). split; [|done].
    apply list_elem_of_fmap. exists r. split; [|done].
    destruct r as [[? ?] ?]. unfold record_item in Hv. by simplify_eq/=.
  - intros (s & (r & Hr & Hin)%list_elem_of_fmap & ->).
    destruct r as [[v0 s0] q0]. unfold record_pair in Hr. simpl in Hr.
    injection Hr as <- <-.
    exists (v, s, q0). split; [done|]. by apply list_elem_of_filter.
Qed.

Lemma elem_of_record_item records v :
  v ∈ record_item <$> records ↔ ∃ s, (v, s) ∈ record_pair <$> records.
Proof.
  rewrite list_elem_of_fmap. split.
  - intros ([[v0 s0] q0] & Heq & Hin). unfold record_item in Heq.
    simplify_eq/=. exists s0. apply list_elem_of_fmap. by exists (v0, s0, q0).
  - intros (s & ([[v0 s0] q0] & Heq & Hin)%list_elem_of_fmap).
    unfold record_pair in Heq. simpl in Heq. injection Heq as <- <-.
    by exists (v, s, q0).
Qed.

Lemma spec_aggregated_value_None records v :
  v ∉ record_item <$> records → spec_aggregated_value records v = None.
Proof.
  intros Hnin. unfold spec_aggregated_value.
  destruct (subgroup_sums records v) as [|y ys] eqn:Heq; [done|].
  destruct Hnin. apply elem_of_record_item.
  assert (y ∈ subgroup_sums records v) as Hy by (rewrite Heq; left).
  apply elem_of_subgroup_sums in Hy as (s & Hs & _). eauto.
Qed.

Lemma spec_aggregated_value_Some records v :
  v ∈ record_item <$> records →
  ∃ m, spec_aggregated_value records v = Some m
       ∧ is_max_of m (subgroup_sums records v).
Proof.
  intros (s & Hs)%elem_of_record_item. unfold spec_aggregated_value.
  destruct (subgroup_sums records v) as [|y ys] eqn:Heq.
  - assert (subgroup_sum records v s ∈ subgroup_sums records v) as Hin
      by (apply elem_of_subgroup_sums; eauto).
    rewrite Heq in Hin. by apply elem_of_nil in Hin.
  - eexists. split; [done|]. apply foldr_max_is_max.
Qed.
End spec_facts.

(** ** The first aggregation level (lines 59-65) *)

Section sum_facts.
Implicit Types (by_variant : list (Z * list (option Z * Z))).
Implicit Types (records : list RawRecord).

Lemma defaultdict_iadd_get {K} `{EqDecision K} (d : list (K * Z)) k q k' :
  dict_get (defaultdict_iadd d k q) k'
  = if decide (k' = k) then Some (default 0 (dict_get d k) + q)
    else dict_get d k'.
Proof.
  unfold defaultdict_iadd, defaultdict_getitem.
  destruct (dict_get d k) eqn:Hget; simpl; rewrite !dict_get_set;
    destruct (decide (k' = k)); done.
Qed.

Lemma defaultdict_iadd_wf {K} `{EqDecision K} (d : list (K * Z)) k q :
  dict_wf d → dict_wf (defaultdict_iadd d k q).
Proof.
  unfold defaultdict_iadd, defaultdict_getitem.
  destruct (dict_get d k); auto using dict_wf_set.
Qed.

Lemma add_quantity_get by_variant v0 s0 q0 v :
  dict_get (add_quantity by_variant (v0, s0, q0)) v
  = if decide (v = v0)
    then Some (defaultdict_iadd (default [] (dict_get by_variant v0)) s0 q0)
    else dict_get by_variant v.
Proof.
  unfold add_quantity, defaultdict_getitem.
  destruct (dict_get by_variant v0) eqn:Hget; simpl; rewrite !dict_get_set;
    destruct (decide (v = v0)); done.
Qed.

Lemma add_quantity_wf by_variant r :
  dict_wf by_variant → dict_wf (add_quantity by_variant r).
Proof.
  destruct r as [[v0 s0] q0]. unfold add_quantity, defaultdict_getitem.
  destruct (dict_get by_variant v0); auto using dict_wf_set.
Qed.

Lemma quantity_by_shipping_zone_snoc records r :
  quantity_by_shipping_zone_by_product_variant (records ++ [r])
  = add_quantity (quantity_by_shipping_zone_by_product_variant records) r.
Proof.
  unfold quantity_by_shipping_zone_by_product_variant. by rewrite fold_left_app.
Qed.

Lemma quantity_by_shipping_zone_wf records :
  dict_wf (quantity_by_shipping_zone_by_product_variant records).
Proof.
  induction records as [|r records IH] using rev_ind.
  - apply dict_wf_nil.
  - rewrite quantity_by_shipping_zone_snoc. by apply add_quantity_wf.
Qed.

(** The variants with an entry are those with a record. *)
Lemma quantity_by_shipping_zone_dom records v :
  is_Some (dict_get (quantity_by_shipping_zone_by_product_variant records) v)
  ↔ v ∈ record_item <$> records.
Proof.
  induction records as [|[[v0 s0] q0] records IH] using rev_ind.
  - simpl. split; [by intros [? ?] | by intros ?%elem_of_nil].
  - rewrite quantity_by_shipping_zone_snoc, add_quantity_get, fmap_app.
    change (record_item <$> [(v0, s0, q0)]) with [v0].
    rewrite elem_of_app, list_elem_of_singleton.
    destruct (decide (v = v0)); [split; [by right | by eexists] |].
    rewrite IH. tauto.
Qed.

(** The inner dictionaries have distinct keys, and hold under each zone id
    the sum of the quantities recorded for the (variant, zone id) pair. *)
Lemma quantity_by_shipping_zone_inner records v :
  let by_zone :=
    default [] (dict_get (quantity_by_shipping_zone_by_product_variant records) v) in
  dict_wf by_zone ∧
  ∀ s, dict_get by_zone s
       = if decide ((v, s) ∈ record_pair <$> records)
         then Some (subgroup_sum records v s) else None.
Proof.
  simpl. induction records as [|[[v0 s0] q0] records IH] using rev_ind.
  - split; [apply dict_wf_nil | done].
  - destruct IH as [IHwf IHget].
    rewrite quantity_by_shipping_zone_snoc, add_quantity_get.
    destruct (decide (v = v0)) as [->|Hv]; simpl.
    + split; [by apply defaultdict_iadd_wf|]. intros s.
      rewrite defaultdict_iadd_get, subgroup_sum_snoc, fmap_app.
      change (record_pair <$> [(v0, s0, q0)]) with [(v0, s0)].
      change (record_pair (v0, s0, q0)) with (v0, s0).
      change (record_quantity (v0, s0, q0)) with q0.
      destruct (decide (s = s0)) as [->|Hs].
      * rewrite (decide_True (P := (v0, s0) = (v0, s0))) by done.
        assert ((v0, s0) ∈ (record_pair <$> records) ++ [(v0, s0)]) as Hin
          by (apply elem_of_app; right; left).
        rewrite (decide_True (P := (v0, s0) ∈ _)) by exact Hin.
        rewrite IHget. destruct (decide ((v0, s0) ∈ record_pair <$> records));
          simpl; [done|]. by rewrite subgroup_sum_absent.
      * rewrite (decide_False (P := (v0, s0) = (v0, s))) by congruence.
        rewrite IHget, Z.add_0_r.
        destruct (decide ((v0, s) ∈ record_pair <$> records)) as [Hin|Hnin].
        -- rewrite decide_True; [done|]. apply elem_of_app. by left.
        -- rewrite decide_False; [done|].
           rewrite elem_of_app, list_elem_of_singleton.
           intros [?|?]; [done|congruence].
    + split; [done|]. intros s.
      rewrite IHget, subgroup_sum_snoc, fmap_app.
      change (record_pair <$> [(v0, s0, q0)]) with [(v0, s0)].
      change (record_pair (v0, s0, q0)) with (v0, s0).
      rewrite (decide_False (P := (v0, s0) = (v, s))) by congruence.
      rewrite Z.add_0_r.
      destruct (decide ((v, s) ∈ record_pair <$> records)) as [Hin|Hnin].
      * rewrite decide_True; [done|]. apply elem_of_app. by left.
      * rewrite decide_False; [done|].
        rewrite elem_of_app, list_elem_of_singleton.
        intros [?|?]; [done|congruence].
Qed.
End sum_facts.

(** ** The second aggregation level (lines 66-71) *)

Section max_facts.
Implicit Types (records : list RawRecord).

(** The loop stores, for each entry, the maximum of its inner values; no
    [max()] is taken of an empty dictionary, and no query is run. *)
Lemma for_each_set_max (items : list (Z * list (option Z * Z)))
    (quantity_map : list (Z * Z)) log :
  dict_wf items →
  (∀ v by_zone, (v, by_zone) ∈ items → by_zone ≠ []) →
  ∃ quantity_map',
    for_each items set_max quantity_map log = Some (quantity_map', log)
    ∧ ∀ v, match dict_get items v with
           | Some by_zone =>
               ∃ m, dict_get quantity_map' v = Some m
                    ∧ is_max_of m (dict_values by_zone)
           | None => dict_get quantity_map' v = dict_get quantity_map v
           end.
Proof.
  revert quantity_map.
  induction items as [|[v0 by_zone0] items IH]; intros quantity_map Hwf Hne.
  - eexists. split; [done|]. done.
  - apply NoDup_cons in Hwf as [Hv0 Hwf]. simpl in Hv0.
    destruct (py_max_is_max (dict_values by_zone0) log) as (m0 & Hmax & Hm0).
    { assert (by_zone0 ≠ []) by (apply (Hne v0); left).
      unfold dict_values. by destruct by_zone0. }
    destruct (IH (dict_set quantity_map v0 m0) Hwf) as (qm & Hrun & Hqm).
    { intros v bz Hin. apply (Hne v). by right. }
    exists qm. split.
    + simpl. unfold bind. rewrite Hmax. simpl. exact Hrun.
    + intros v. simpl. specialize (Hqm v).
      destruct (decide (v = v0)) as [->|Hv].
      * apply dict_get_None in Hv0. rewrite Hv0 in Hqm.
        rewrite dict_get_set_eq in Hqm. eauto.
      * destruct (dict_get items v); [done|].
        by rewrite dict_get_set_ne in Hqm.
Qed.

Lemma elem_of_dict_values {K} `{EqDecision K} (d : list (K * Z)) y :
  dict_wf d → y ∈ dict_values d ↔ ∃ k, dict_get d k = Some y.
Proof.
  intros Hwf. unfold dict_values. rewrite list_elem_of_fmap. split.
  - intros ([k y'] & -> & Hin). exists k. by apply dict_elem_get.
  - intros (k & Hget%dict_get_Some_elem). by exists (k, y).
Qed.

(** The two-level aggregation of the code computes the aggregated value of
    the specification, and never raises. *)
Lemma quantity_map_of_spec records log :
  ∃ quantity_map,
    quantity_map_of records log = Some (quantity_map, log)
    ∧ ∀ v, dict_get quantity_map v = spec_aggregated_value records v.
Proof.
  unfold quantity_map_of, dict_items.
  set (by_variant := quantity_by_shipping_zone_by_product_variant records).
  destruct (for_each_set_max by_variant [] log) as (qm & Hrun & Hqm).
  { apply quantity_by_shipping_zone_wf. }
  { intros v by_zone Hin ->.
    apply dict_elem_get in Hin; [|apply quantity_by_shipping_zone_wf].
    assert (v ∈ record_item <$> records) as (s & Hs)%elem_of_record_item
      by (apply quantity_by_shipping_zone_dom; by eexists).
    destruct (quantity_by_shipping_zone_inner records v) as [_ Hget].
    specialize (Hget s). fold by_variant in Hget. rewrite Hin in Hget.
    by rewrite decide_True in Hget. }
  exists qm. split; [done|]. intros v. specialize (Hqm v).
  destruct (quantity_by_shipping_zone_inner records v) as [Hwf Hget].
  pose proof (quantity_by_shipping_zone_dom records v) as Hdom.
  fold by_variant in Hwf, Hget, Hdom.
  destruct (dict_get by_variant v) as [by_zone|]; simpl in *.
  - destruct Hqm as (m & -> & Hm).
    destruct (spec_aggregated_value_Some records v) as (m' & -> & Hm').
    { apply Hdom. by eexists. }
    f_equal. apply (is_max_of_unique _ _ _ _ Hm Hm'). intros y.
    rewrite elem_of_dict_values, elem_of_subgroup_sums by done.
    split; intros (s & Hs); exists s.
    + rewrite Hget in Hs. destruct (decide _); by simplify_eq.
    + destruct Hs as [Hin ->]. by rewrite Hget, decide_True.
  - rewrite Hqm. symmetry. apply spec_aggregated_value_None.
    intros Hin%Hdom. by destruct Hin.
Qed.
End max_facts.

(** ** The cap (lines 75-81) *)

Lemma capped_quantities_fst cap (quantity_map : list (Z * Z)) variant_ids :
  (capped_quantities cap quantity_map variant_ids).1
  = (λ v, (v, Z.min (default 0 (dict_get quantity_map v)) cap)) <$> variant_ids.
Proof.
  revert quantity_map.
  induction variant_ids as [|v ids IH]; intros quantity_map; simpl; [done|].
  pose proof (defaultdict_getitem_fst 0 quantity_map v) as H1.
  pose proof (defaultdict_getitem_snd 0 quantity_map v) as H2.
  destruct (defaultdict_getitem 0 quantity_map v) as [q qm1]. simpl in *.
  specialize (IH qm1). destruct (capped_quantities cap qm1 ids) as [out qm2].
  simpl in *. rewrite H1, IH. f_equal.
  apply list_fmap_ext. intros i v' Hi. by rewrite H2.
Qed.

(** ** The query (lines 48-54) *)

Section query_facts.
Variable store : list StockRow.

(** Restricting the table to a set of variants loses no record of a
    variant of the set. *)
Lemma filter_records_of_variants (P : RawRecord → Prop) `{∀ r, Decision (P r)}
    variant_ids :
  (∀ r, P (values_list_row r) → product_variant_id r ∈ variant_ids) →
  filter P (qs_rows store (stock_for_variants variant_ids))
  = filter P (values_list_row <$> store).
Proof.
  intros HP. unfold qs_rows.
  assert (∀ r, qs_holds (stock_for_variants variant_ids) r
               = bool_decide (product_variant_id r ∈ variant_ids)) as Hq
    by (intros r; simpl; apply andb_true_r).
  induction store as [|r rows IH]; [done|].
  cbn [List.filter]. rewrite Hq, !fmap_cons.
  destruct (bool_decide_reflect (product_variant_id r ∈ variant_ids)) as [Hin|Hnin].
  - rewrite fmap_cons, !filter_cons. destruct (decide (P (values_list_row r)));
      by rewrite IH.
  - rewrite filter_cons, decide_False; [done|]. intros HPr. by apply Hnin, HP.
Qed.

Lemma subgroup_sum_stock_for_variants variant_ids v s :
  v ∈ variant_ids →
  subgroup_sum (qs_rows store (stock_for_variants variant_ids)) v s
  = subgroup_sum (values_list_row <$> store) v s.
Proof.
  intros Hv. unfold subgroup_sum, records_of_pair.
  rewrite filter_records_of_variants; [done|]. by intros r [<- _].
Qed.

Lemma spec_aggregated_value_stock_for_variants variant_ids v :
  v ∈ variant_ids →
  spec_aggregated_value (qs_rows store (stock_for_variants variant_ids)) v
  = spec_aggregated_value (values_list_row <$> store) v.
Proof.
  intros Hv. unfold spec_aggregated_value.
  assert (subgroup_sums (qs_rows store (stock_for_variants variant_ids)) v
          = subgroup_sums (values_list_row <$> store) v) as ->; [|done].
  unfold subgroup_sums, records_of_item.
  rewrite filter_records_of_variants by (by intros r <-).
  apply list_fmap_ext. intros i r Hi.
  by apply subgroup_sum_stock_for_variants.
Qed.
End query_facts.

(** ** One zone (lines 45-81) and the whole batch (lines 25-43) *)

Section loader_facts.
Variable store : list StockRow.
Variable cap : Z.

(** [batch_load_shipping_zone] runs one query (none for an empty list of
    ids), never raises, and pairs each requested id with its capped value,
    whatever the zone. *)
Lemma batch_load_shipping_zone_spec shipping_zone variant_ids log :
  batch_load_shipping_zone store cap shipping_zone variant_ids log
  = Some ((λ v, (v, capped_value store cap v)) <$> variant_ids,
          log ++ zone_load_queries variant_ids).
Proof.
  destruct variant_ids as [|v0 ids]; [by rewrite app_nil_r|].
  set (variant_ids := v0 :: ids).
  unfold batch_load_shipping_zone, bind, iterate.
  change (matches_nothing (stock_for_variants variant_ids)) with false.
  cbn iota.
  destruct (quantity_map_of_spec
              (qs_rows store (stock_for_variants variant_ids))
              (log ++ [stock_for_variants variant_ids])) as (qm & -> & Hqm).
  unfold ret. rewrite capped_quantities_fst. do 2 f_equal.
  apply list_fmap_ext. intros i v Hi. unfold capped_value.
  rewrite Hqm, spec_aggregated_value_stock_for_variants; [done|].
  by eapply list_elem_of_lookup_2.
Qed.

Lemma fold_left_store_quantity shipping_zone (f : Z → Z) variant_ids
    (by_key : list (VariantIdAndShippingZone * Z)) key :
  dict_get (fold_left (store_quantity shipping_zone)
                      ((λ v, (v, f v)) <$> variant_ids) by_key) key
  = if decide (key.2 = shipping_zone ∧ key.1 ∈ variant_ids)
    then Some (f key.1) else dict_get by_key key.
Proof.
  revert by_key. induction variant_ids as [|v ids IH]; intros by_key; simpl.
  - rewrite decide_False; [done|]. intros [_ ?%elem_of_nil]. done.
  - rewrite IH, dict_get_set.
    destruct key as [v' z']. simpl.
    destruct (decide (z' = shipping_zone ∧ v' ∈ ids)) as [[-> Hin]|Hnin].
    + rewrite decide_True; [done|]. split; [done|]. by right.
    + destruct (decide ((v', z') = (v, shipping_zone))) as [Heq|Hne].
      * simplify_eq. rewrite decide_True; [done|]. split; [done|]. left.
      * rewrite decide_False; [done|].
        intros [-> [->|?]%elem_of_cons]; tauto.
Qed.

(** The loop over the zones: every key of a finished zone holds its capped
    value, other entries are untouched, one query per zone. *)
Lemma for_each_load_zone (items : list (ShippingZone * list Z))
    (by_key : list (VariantIdAndShippingZone * Z)) log :
  Forall (λ item, item.2 ≠ []) items →
  ∃ by_key',
    for_each items (load_zone store cap) by_key log
    = Some (by_key', log ++ ((λ item, stock_for_variants item.2) <$> items))
    ∧ ∀ key,
        dict_get by_key' key
        = if decide (Exists (λ item, key.2 = item.1 ∧ key.1 ∈ item.2) items)
          then Some (capped_value store cap key.1) else dict_get by_key key.
Proof.
  revert by_key log.
  induction items as [|[z ids] items IH]; intros by_key log Hne.
  - exists by_key. split; [simpl; by rewrite app_nil_r|]. intros key.
    rewrite decide_False; [done|]. by intros ?%Exists_nil.
  - apply Forall_cons in Hne as [Hids Hne]. simpl in Hids.
    cbn [for_each load_zone]. unfold bind.
    rewrite batch_load_shipping_zone_spec. unfold ret.
    assert (zone_load_queries ids = [stock_for_variants ids]) as ->
      by (by destruct ids).
    destruct (IH (fold_left (store_quantity z)
                    ((λ v, (v, capped_value store cap v)) <$> ids) by_key)
                 (log ++ [stock_for_variants ids]) Hne) as (by_key' & -> & Hget).
    exists by_key'. split; [simpl; by rewrite <- app_assoc|]. intros key.
    rewrite Hget, fold_left_store_quantity.
    destruct (decide (Exists (λ item, key.2 = item.1 ∧ key.1 ∈ item.2) items))
      as [Hex|Hnone].
    + rewrite decide_True; [done|]. by apply Exists_cons_tl.
    + destruct (decide (key.2 = z ∧ key.1 ∈ ids)) as [Hz|Hnz].
      * rewrite decide_True; [done|]. by apply Exists_cons_hd.
      * rewrite decide_False; [done|]. by intros [?|?]%Exists_cons.
Qed.

(** No list of the split is empty: a zone gets an entry when a key names it. *)
Lemma split_by_shipping_zone_nonempty (keys : list VariantIdAndShippingZone) :
  Forall (λ item, item.2 ≠ []) (dict_items (split_by_shipping_zone keys)).
Proof.
  apply Forall_forall. intros [z ids] Hin.
  apply split_by_shipping_zone_items in Hin as [Hz ->]. simpl.
  apply list_elem_of_fmap in Hz as ([v z'] & -> & Hkey). simpl.
  apply elem_of_requested_under in Hkey. intros Hnil. rewrite Hnil in Hkey.
  by apply elem_of_nil in Hkey.
Qed.

(** [batch_load] never raises; it answers every key, in order, with the
    capped value of the key's variant, and sends [batch_queries]. *)
Lemma batch_load_spec keys log :
  batch_load store cap keys log
  = Some ((λ key : VariantIdAndShippingZone, capped_value store cap key.1) <$> keys,
          log ++ batch_queries keys).
Proof.
  unfold batch_load, bind.
  destruct (for_each_load_zone (dict_items (split_by_shipping_zone keys)) [] log
              (split_by_shipping_zone_nonempty keys))
    as (by_key & -> & Hget).
  unfold ret, batch_queries. rewrite defaultdict_getitems_fst. do 2 f_equal.
  apply list_fmap_ext. intros i [v z] Hi. rewrite Hget, decide_True; [done|].
  apply list_elem_of_lookup_2 in Hi. simpl.
  apply Exists_exists. exists (z, requested_under keys z). split.
  - unfold dict_items. apply dict_get_Some_elem.
    rewrite split_by_shipping_zone_get, decide_True; [done|].
    apply list_elem_of_fmap. by exists (v, z).
  - split; [done|]. by apply elem_of_requested_under.
Qed.
End loader_facts.

(** ** Values handed out *)

Section value_facts.
Variable store : list StockRow.
Variable cap : Z.

Lemma spec_aggregated_value_nonneg (records : list RawRecord) v m :
  (∀ r, r ∈ records → 0 ≤ record_quantity r) →
  spec_aggregated_value records v = Some m → 0 ≤ m.
Proof.
  intros Hq Hm. destruct (decide (v ∈ record_item <$> records)) as [Hin|Hnin].
  - destruct (spec_aggregated_value_Some records v Hin) as (m' & Hm' & [Hel _]).
    rewrite Hm in Hm'. injection Hm' as <-.
    apply elem_of_subgroup_sums in Hel as (s & _ & ->).
    apply Zsum_nonneg. intros q (r & -> & [_ Hr]%list_elem_of_filter)%list_elem_of_fmap.
    by apply Hq.
  - by rewrite spec_aggregated_value_None in Hm.
Qed.

Lemma capped_value_bounds v :
  0 ≤ cap → (∀ r, r ∈ store → 0 ≤ available_quantity r) →
  0 ≤ capped_value store cap v ≤ cap.
Proof.
  intros Hcap Hq. unfold capped_value.
  destruct (spec_aggregated_value (values_list_row <$> store) v) as [m|] eqn:Hm;
    simpl; [|lia].
  apply spec_aggregated_value_nonneg in Hm; [lia|].
  intros q (r & -> & Hr)%list_elem_of_fmap. by apply Hq.
Qed.

(** A variant without any row in the table gets zero (the cap permitting). *)
Lemma capped_value_without_rows v :
  0 ≤ cap → v ∉ product_variant_id <$> store → capped_value store cap v = 0.
Proof.
  intros Hcap Hv. unfold capped_value.
  rewrite spec_aggregated_value_None; [simpl; lia|].
  intros (r & -> & (r' & -> & Hr')%list_elem_of_fmap)%list_elem_of_fmap.
  apply Hv. apply list_elem_of_fmap. by exists r'.
Qed.
End value_facts.

(** * The claims *)

(** C1 (the code departs from it).  The claim: a key with a zone is answered
    from the records of that zone only.  In the code the queryset restricted
    to the zone is built and dropped, so the query that runs has the variant
    lookup alone.  Here two tables hold the same records in the scope of zone
    EU for variant 1, and the key (1, EU) is answered 7 on one and 5 on the
    other: the 7 comes from the US row. *)
Theorem C1_zone_filter_is_dropped :
  qs_rows store_EU_US (restricted_to_zone (stock_for_variants [1]) (Some "EU"))
  = qs_rows store_EU (restricted_to_zone (stock_for_variants [1]) (Some "EU"))
  ∧ batch_load store_EU_US 50 [(1, Some "EU")] []
    = Some ([7], [[product_variant_id__in [1]]])
  ∧ batch_load store_EU 50 [(1, Some "EU")] []
    = Some ([5], [[product_variant_id__in [1]]]).
Proof. repeat split; reflexivity. Qed.

(** C2.  For a fixed table and cap, the value returned for a key does not
    depend on the zone of the key: a key (v, q1) at position i of one batch and
    a key (v, q2) at position j of another (or of the same) batch receive the
    same value, and neither call raises. *)
Theorem C2_value_independent_of_zone store cap
    (keys1 keys2 : list VariantIdAndShippingZone) log1 log2 (i j : nat) v q1 q2 :
  keys1 !! i = Some (v, q1) →
  keys2 !! j = Some (v, q2) →
  ∃ results1 log1' results2 log2' r,
    batch_load store cap keys1 log1 = Some (results1, log1')
    ∧ batch_load store cap keys2 log2 = Some (results2, log2')
    ∧ results1 !! i = Some r ∧ results2 !! j = Some r.
Proof.
  intros H1 H2. do 4 eexists. exists (capped_value store cap v).
  rewrite !batch_load_spec. split; [done|]. split; [done|].
  rewrite !list_lookup_fmap, H1, H2. done.
Qed.

Lemma C2_value_independent_of_zone_witness :
  ∃ results1 log1' results2 log2' r,
    batch_load store_EU_US 50 [(2, None); (1, Some "EU")] [] = Some (results1, log1')
    ∧ batch_load store_EU_US 50 [(1, Some "US")] [] = Some (results2, log2')
    ∧ results1 !! 1%nat = Some r ∧ results2 !! 0%nat = Some r.
Proof.
  apply (C2_value_independent_of_zone store_EU_US 50
           [(2, None); (1, Some "EU")] [(1, Some "US")] [] [] 1 0 1
           (Some "EU") (Some "US")); reflexivity.
Defined.

(** C3.  For an item with at least one record in the result of a query, the
    value stored in [quantity_map] before the cap is the maximum, over the
    item's subgroups, of the sum of the quantities of the records sharing the
    (item, subgroup) pair, and computing it does not raise.  On the records
    (1, A, 5), (1, A, 3), (1, B, 4) the value of item 1 is 8; the loader
    answers [8] under a cap of 10 and [6] under a cap of 6. *)
Theorem C3_sum_per_subgroup_then_max :
  (∀ (records : list RawRecord) v log,
     v ∈ record_item <$> records →
     ∃ quantity_map m,
       quantity_map_of records log = Some (quantity_map, log)
       ∧ dict_get quantity_map v = Some m
       ∧ spec_aggregated_value records v = Some m
       ∧ is_max_of m (subgroup_sums records v))
  ∧ quantity_map_of [(1, Some 1, 5); (1, Some 1, 3); (1, Some 2, 4)] []
    = Some ([(1, 8)], [])
  ∧ batch_load store_Q 10 [(1, Some "Q")] [] = Some ([8], [[product_variant_id__in [1]]])
  ∧ batch_load store_Q 6 [(1, Some "Q")] [] = Some ([6], [[product_variant_id__in [1]]]).
Proof.
  split; [|repeat split; reflexivity].
  intros records v log Hv.
  destruct (quantity_map_of_spec records log) as (qm & Hrun & Hqm).
  destruct (spec_aggregated_value_Some records v Hv) as (m & Hm & Hmax).
  exists qm, m. by rewrite Hqm.
Qed.

(** C4.  [batch_load] returns one value per key, in the order of the keys:
    the result has the length of the key list, and its i-th element is the
    value that [batch_load] returns for the i-th key on its own. *)
Theorem C4_one_answer_per_key_in_order store cap
    (keys : list VariantIdAndShippingZone) log :
  ∃ results log',
    batch_load store cap keys log = Some (results, log')
    ∧ length results = length keys
    ∧ ∀ (i : nat) key,
        keys !! i = Some key →
        ∃ r log1,
          results !! i = Some r
          ∧ batch_load store cap [key] [] = Some ([r], log1).
Proof.
  do 2 eexists. rewrite batch_load_spec. split; [done|].
  split; [by rewrite length_fmap|].
  intros i key Hkey. do 2 eexists. rewrite list_lookup_fmap, Hkey.
  split; [done|]. by rewrite batch_load_spec.
Qed.

(** C5, as the code has it.  The split maps each zone of the batch to the
    list of the variant ids requested under it, in request order and with
    repetitions: the zones are pairwise distinct keys, the list under a zone
    is [requested_under keys zone], and every (variant, zone) pair of the batch
    is in the list of its zone, which is the only entry for that zone. *)
Theorem C5_split_lists_every_request (keys : list VariantIdAndShippingZone) :
  let variants_by_shipping_zone := split_by_shipping_zone keys in
  dict_wf variants_by_shipping_zone
  ∧ (∀ z, z ∈ dict_keys variants_by_shipping_zone ↔ z ∈ keys.*2)
  ∧ (∀ z ids, (z, ids) ∈ dict_items variants_by_shipping_zone →
              ids = requested_under keys z)
  ∧ (∀ v z, (v, z) ∈ keys →
            ∃ ids, (z, ids) ∈ dict_items variants_by_shipping_zone
                   ∧ v ∈ ids
                   ∧ ∀ ids', (z, ids') ∈ dict_items variants_by_shipping_zone →
                             ids' = ids).
Proof.
  simpl. split; [apply split_by_shipping_zone_wf|].
  split; [apply split_by_shipping_zone_keys|].
  split; [intros z ids Hin; by apply split_by_shipping_zone_items in Hin as [_ ?]|].
  intros v z Hin. exists (requested_under keys z). split; [|split].
  - unfold dict_items. apply dict_get_Some_elem.
    rewrite split_by_shipping_zone_get, decide_True; [done|].
    apply list_elem_of_fmap. by exists (v, z).
  - by apply elem_of_requested_under.
  - intros ids' Hin'. by apply split_by_shipping_zone_items in Hin' as [_ ?].
Qed.

(** C5, as stated, fails: a variant requested twice under one zone is listed
    twice in the list of that zone. *)
Lemma C5_split_keeps_duplicates :
  ∃ z ids,
    (z, ids) ∈ dict_items (split_by_shipping_zone [(1, None); (1, None)])
    ∧ ¬ NoDup ids.
Proof.
  exists None, [1; 1]. split; [left|].
  intros [Hnin _]%NoDup_cons. apply Hnin. left.
Qed.

(** The mapping the aggregation builds ([quantity_map], lines 66-71) has an
    entry exactly for the variants with a fetched record; the read of the cap
    step gives a variant without entry the quantity [min 0 cap]. *)
Lemma quantity_map_holds_items_with_records (records : list RawRecord) log :
  ∃ quantity_map,
    quantity_map_of records log = Some (quantity_map, log)
    ∧ (∀ v, is_Some (dict_get quantity_map v) ↔ v ∈ record_item <$> records)
    ∧ (∀ v cap, v ∉ record_item <$> records →
                dict_get quantity_map v = None
                ∧ (capped_quantities cap quantity_map [v]).1 = [(v, Z.min 0 cap)]).
Proof.
  destruct (quantity_map_of_spec records log) as (qm & Hrun & Hqm).
  exists qm. split; [done|]. split.
  - intros v. rewrite Hqm. split.
    + intros [m Hm]. destruct (decide (v ∈ record_item <$> records)); [done|].
      by rewrite spec_aggregated_value_None in Hm.
    + intros Hv. destruct (spec_aggregated_value_Some records v Hv) as (m & -> & _).
      by eexists.
  - intros v cap Hv. assert (dict_get qm v = None) as Hnone
      by (by rewrite Hqm, spec_aggregated_value_None).
    split; [done|]. by rewrite capped_quantities_fst; simpl; rewrite Hnone.
Qed.

Lemma fmap_fst_paired {A B} (f : A → B) (l : list A) :
  ((λ x, (x, f x)) <$> l).*1 = l.
Proof. induction l as [|x l IH]; [done|]. csimpl. by rewrite IH. Qed.

(** C6, as the code has it.  The list [batch_load_shipping_zone] returns is
    not restricted to the ids that had a record: it holds one pair per
    requested id, in request order.  A requested id without any row in the
    table is absent from the intermediate [quantity_map] only; in the returned
    list it is paired with [min 0 cap], and with nothing else. *)
Theorem C6_zone_load_answers_every_requested_id (store : list StockRow) cap
    (shipping_zone : ShippingZone) (variant_ids : list Z) log :
  ∃ quantities log' quantity_map,
    batch_load_shipping_zone store cap shipping_zone variant_ids log
    = Some (quantities, log')
    ∧ quantities.*1 = variant_ids
    ∧ quantity_map_of (qs_rows store (stock_for_variants variant_ids)) []
      = Some (quantity_map, [])
    ∧ ∀ v, v ∈ variant_ids →
           v ∉ product_variant_id <$> store →
           dict_get quantity_map v = None
           ∧ (v, Z.min 0 cap) ∈ quantities
           ∧ ∀ q, (v, q) ∈ quantities → q = Z.min 0 cap.
Proof.
  destruct (quantity_map_of_spec
              (qs_rows store (stock_for_variants variant_ids)) [])
    as (qm & Hrun & Hqm).
  do 2 eexists. exists qm. rewrite batch_load_shipping_zone_spec.
  split; [done|]. split; [apply fmap_fst_paired|]. split; [done|].
  intros v Hv Hnone.
  assert (spec_aggregated_value (values_list_row <$> store) v = None) as Hagg.
  { apply spec_aggregated_value_None.
    intros (r & -> & (r' & -> & Hr')%list_elem_of_fmap)%list_elem_of_fmap.
    apply Hnone. apply list_elem_of_fmap. by exists r'. }
  assert (capped_value store cap v = Z.min 0 cap) as Hcap
    by (unfold capped_value; by rewrite Hagg).
  split; [|split].
  - by rewrite Hqm, spec_aggregated_value_stock_for_variants.
  - apply list_elem_of_fmap. exists v. by rewrite Hcap.
  - intros q (v' & Heq & _)%list_elem_of_fmap. by simplify_eq.
Qed.

(** C6, as stated, fails: variant 2 is requested in the group of zone EU and
    has no record, neither among the rows fetched for the group nor among the
    rows of zone EU, and yet the returned list has an entry for it. *)
Lemma C6_id_without_record_is_in_the_output :
  ∃ quantities log',
    batch_load_shipping_zone store_US 50 (Some "EU") [1; 2] [] = Some (quantities, log')
    ∧ (2 ∉ record_item <$> qs_rows store_US (stock_for_variants [1; 2]))
    ∧ (2 ∉ record_item
           <$> qs_rows store_US
                 (restricted_to_zone (stock_for_variants [1; 2]) (Some "EU")))
    ∧ 2 ∈ quantities.*1.
Proof.
  do 2 eexists. split; [reflexivity|]. split; [|split].
  - intros Hin%list_elem_of_singleton. discriminate Hin.
  - intros Hin. by apply elem_of_nil in Hin.
  - right. left.
Qed.

(** C7.  With a non-negative cap and non-negative quantities in the table,
    the value at each position is [min (quantity_map[variant] or 0) cap], where
    [quantity_map] is the aggregation of the records fetched for the key's
    zone, and every value of the result lies between 0 and the cap. *)
Theorem C7_results_are_capped store cap
    (keys : list VariantIdAndShippingZone) log :
  0 ≤ cap →
  Forall (λ r, 0 ≤ available_quantity r) store →
  ∃ results log',
    batch_load store cap keys log = Some (results, log')
    ∧ (∀ (i : nat) v z,
         keys !! i = Some (v, z) →
         ∃ quantity_map,
           quantity_map_of
             (qs_rows store (stock_for_variants (requested_under keys z))) []
           = Some (quantity_map, [])
           ∧ results !! i = Some (Z.min (default 0 (dict_get quantity_map v)) cap))
    ∧ Forall (λ r, 0 ≤ r ≤ cap) results.
Proof.
  intros Hcap Hq. do 2 eexists. rewrite batch_load_spec. split; [done|]. split.
  - intros i v z Hkey.
    destruct (quantity_map_of_spec
                (qs_rows store (stock_for_variants (requested_under keys z))) [])
      as (qm & Hrun & Hqm).
    exists qm. split; [done|]. rewrite list_lookup_fmap, Hkey. simpl.
    unfold capped_value.
    rewrite Hqm, spec_aggregated_value_stock_for_variants; [done|].
    apply elem_of_requested_under. by eapply list_elem_of_lookup_2.
  - apply Forall_fmap, Forall_forall. intros key _. simpl.
    apply capped_value_bounds; [done|]. by apply Forall_forall.
Qed.

Lemma C7_results_are_capped_witness :
  0 ≤ 6
  ∧ Forall (λ r, 0 ≤ available_quantity r) store_Q
  ∧ ∃ results log',
      batch_load store_Q 6 [(1, Some "Q"); (2, None)] [] = Some (results, log')
      ∧ (∀ (i : nat) v z,
           [(1, Some "Q"); (2, None)] !! i = Some (v, z) →
           ∃ quantity_map,
             quantity_map_of
               (qs_rows store_Q
                  (stock_for_variants
                     (requested_under [(1, Some "Q"); (2, None)] z))) []
             = Some (quantity_map, [])
             ∧ results !! i = Some (Z.min (default 0 (dict_get quantity_map v)) 6))
      ∧ Forall (λ r, 0 ≤ r ≤ 6) results.
Proof.
  assert (Forall (λ r, 0 ≤ available_quantity r) store_Q) as Hq
    by (repeat constructor; simpl; lia).
  split; [lia|]. split; [exact Hq|].
  apply (C7_results_are_capped store_Q 6 [(1, Some "Q"); (2, None)] []);
    [lia | exact Hq].
Defined.

(** C8.  A batch whose keys carry N distinct zones runs N queries, whatever
    the number of keys and of variants per zone, and the call does not raise;
    the empty batch returns the empty list and runs no query. *)
Theorem C8_one_query_per_distinct_zone store cap
    (keys : list VariantIdAndShippingZone) log :
  (∃ results queries,
     batch_load store cap keys log = Some (results, log ++ queries)
     ∧ length queries = length (remove_dups keys.*2))
  ∧ batch_load store cap [] log = Some ([], log).
Proof.
  split.
  - do 2 eexists. rewrite batch_load_spec. split; [done|].
    unfold batch_queries. by rewrite length_fmap, split_by_shipping_zone_length.
  - rewrite batch_load_spec. simpl. by rewrite app_nil_r.
Qed.

(** C9 (the code departs from it).  The claim: a key whose variant has no
    record under the key's zone is answered 0.  Variant 1 has no record in
    the scope of zone EU, yet the key (1, EU) is answered 7, taken from the
    row of the US zone: the restriction to the zone never reaches the query. *)
Theorem C9_rows_of_other_zones_are_counted :
  qs_rows store_US (restricted_to_zone (stock_for_variants [1]) (Some "EU")) = []
  ∧ batch_load store_US 50 [(1, Some "EU")] []
    = Some ([7], [[product_variant_id__in [1]]]).
Proof. split; reflexivity. Qed.

(** What does hold of the default: a variant without any row in the table,
    in whatever zone, is answered 0 (for a non-negative cap), without error. *)
Lemma batch_load_zero_without_rows store cap
    (keys : list VariantIdAndShippingZone) log (i : nat) v z :
  0 ≤ cap →
  keys !! i = Some (v, z) →
  v ∉ product_variant_id <$> store →
  ∃ results log',
    batch_load store cap keys log = Some (results, log')
    ∧ results !! i = Some 0.
Proof.
  intros Hcap Hkey Hv. do 2 eexists. rewrite batch_load_spec. split; [done|].
  rewrite list_lookup_fmap, Hkey. simpl. by rewrite capped_value_without_rows.
Qed.

(** C10.  Within one call, equal keys receive equal values: if the keys at
    positions i and j are the same key, the results at i and j are the same
    value (and the call does not raise). *)
Theorem C10_equal_keys_equal_values store cap
    (keys : list VariantIdAndShippingZone) log (i j : nat) key :
  keys !! i = Some key →
  keys !! j = Some key →
  ∃ results log' r,
    batch_load store cap keys log = Some (results, log')
    ∧ results !! i = Some r ∧ results !! j = Some r.
Proof.
  intros Hi Hj. do 3 eexists. rewrite batch_load_spec. split; [done|].
  rewrite !list_lookup_fmap, Hi, Hj. done.
Qed.

Lemma C10_equal_keys_equal_values_witness :
  ∃ results log' r,
    batch_load store_EU_US 6 [(1, Some "EU"); (2, None); (1, Some "EU")] []
    = Some (results, log')
    ∧ results !! 0%nat = Some r ∧ results !! 2%nat = Some r.
Proof.
  apply (C10_equal_keys_equal_values store_EU_US 6
           [(1, Some "EU"); (2, None); (1, Some "EU")] [] 0 2 (1, Some "EU"));
    reflexivity.
Defined.

(** * Further properties of the loader *)

(** ** The order of the zones and of the queries *)

Section order_facts.
Implicit Types (keys : list VariantIdAndShippingZone) (z : ShippingZone).
Implicit Types (d : list (ShippingZone * list Z)).

Lemma filter_all {A} (P : A → Prop) `{∀ x, Decision (P x)} (l : list A) :
  (∀ x, x ∈ l → P x) → filter P l = l.
Proof.
  induction l as [|x l IH]; intros Hall; [done|].
  rewrite filter_cons_True by (apply Hall; left).
  f_equal. apply IH. intros y Hy. apply Hall. by right.
Qed.

Lemma append_variant_keys d v z :
  dict_keys (append_variant d (v, z))
  = if decide (z ∈ dict_keys d) then dict_keys d else dict_keys d ++ [z].
Proof.
  unfold append_variant, defaultdict_getitem.
  destruct (dict_get d z) as [ids|] eqn:Hget; simpl.
  - rewrite dict_keys_set_present by eauto.
    rewrite decide_True; [done|]. apply dict_get_is_Some. eauto.
  - rewrite dict_keys_set_present by (rewrite dict_get_set_eq; eauto).
    rewrite (dict_set_fresh d z []) by done.
    rewrite decide_False by (by apply dict_get_None).
    unfold dict_keys. by rewrite fmap_app.
Qed.

Lemma fold_left_append_variant_keys keys d :
  dict_keys (fold_left append_variant keys d)
  = dict_keys d ++ filter (λ z, z ∉ dict_keys d) (first_occurrences keys.*2).
Proof.
  revert d. induction keys as [|[v z] keys IH]; intros d.
  - simpl. by rewrite filter_nil, app_nil_r.
  - cbn [fold_left fmap list_fmap first_occurrences snd].
    rewrite IH, append_variant_keys.
    destruct (decide (z ∈ dict_keys d)) as [Hin|Hnin].
    + f_equal. rewrite filter_cons_False by tauto.
      rewrite list_filter_filter. apply list_filter_iff.
      intros z'. split; [|tauto]. intros Hz'. split; [done|]. by intros ->.
    + rewrite <- app_assoc. f_equal. rewrite filter_cons_True by done.
      simpl. f_equal. rewrite list_filter_filter. apply list_filter_iff.
      intros z'. rewrite elem_of_app, list_elem_of_singleton. tauto.
Qed.

(** The zones of the split are the zones of the keys, in the order in which
    the batch first names them. *)
Lemma split_by_shipping_zone_key_order keys :
  dict_keys (split_by_shipping_zone keys) = first_occurrences keys.*2.
Proof.
  unfold split_by_shipping_zone. rewrite fold_left_append_variant_keys. simpl.
  apply filter_all. intros z _. apply not_elem_of_nil.
Qed.

Lemma split_by_shipping_zone_as_map keys :
  dict_items (split_by_shipping_zone keys)
  = (λ z, (z, requested_under keys z)) <$> first_occurrences keys.*2.
Proof.
  rewrite <- split_by_shipping_zone_key_order. unfold dict_keys.
  assert (Forall (λ item, item.2 = requested_under keys item.1)
                 (dict_items (split_by_shipping_zone keys))) as Hall.
  { apply Forall_forall. intros [z ids] Hin.
    by apply split_by_shipping_zone_items in Hin as [_ ->]. }
  unfold dict_items in *. revert Hall.
  generalize (requested_under keys) (split_by_shipping_zone keys).
  intros f items. induction 1 as [|[z ids] items Hz _ IH]; [done|].
  csimpl in *. rewrite Hz. f_equal. exact IH.
Qed.
End order_facts.

(** X1.  For any zone, [batch_load_shipping_zone] returns one pair per
    requested id, in request order (repeated ids included), and does not
    raise; it runs exactly one query, which carries the requested ids and no
    zone, when at least one id is requested, and none for an empty list of
    ids.  The quantity paired with an id is the one the method returns for
    that id asked alone under any other zone. *)
Theorem X1_zone_load_is_positional store cap (shipping_zone : ShippingZone)
    (variant_ids : list Z) log :
  ∃ quantities,
    batch_load_shipping_zone store cap shipping_zone variant_ids log
    = Some (quantities,
            log ++ match variant_ids with
                   | [] => []
                   | _ :: _ => [[product_variant_id__in variant_ids]]
                   end)
    ∧ quantities.*1 = variant_ids
    ∧ ∀ (i : nat) v (other_zone : ShippingZone),
        variant_ids !! i = Some v →
        ∃ q, quantities !! i = Some (v, q)
             ∧ batch_load_shipping_zone store cap other_zone [v] []
               = Some ([(v, q)], [[product_variant_id__in [v]]]).
Proof.
  eexists. rewrite batch_load_shipping_zone_spec. split; [by destruct variant_ids|].
  split.
  - rewrite <- list_fmap_compose. induction variant_ids as [|v ids IH]; [done|].
    csimpl. by rewrite IH.
  - intros i v other_zone Hv. eexists. rewrite list_lookup_fmap, Hv.
    split; [done|]. by rewrite batch_load_shipping_zone_spec.
Qed.

(** X2.  The queries of a batch are sent zone by zone, in the order in which
    the keys first name each zone; the query of a zone asks for the variant
    ids requested under that zone, in request order, and for nothing else: no
    query restricts the zone. *)
Theorem X2_queries_in_order_of_first_request store cap
    (keys : list VariantIdAndShippingZone) log :
  ∃ results,
    batch_load store cap keys log
    = Some (results,
            log ++ ((λ z, [product_variant_id__in (requested_under keys z)])
                      <$> first_occurrences keys.*2)).
Proof.
  eexists. rewrite batch_load_spec. do 2 f_equal.
  unfold batch_queries. rewrite split_by_shipping_zone_as_map.
  by rewrite <- list_fmap_compose.
Qed.

(** ** How the answers depend on the table *)

Section table_facts.
Implicit Types (records : list RawRecord) (store : list StockRow).

Lemma Zsum_perm xs ys : xs ≡ₚ ys → Zsum xs = Zsum ys.
Proof. unfold Zsum. induction 1; simpl; lia. Qed.

Lemma subgroup_sum_perm records records' v s :
  records ≡ₚ records' → subgroup_sum records v s = subgroup_sum records' v s.
Proof.
  intros Hp. unfold subgroup_sum, records_of_pair. apply Zsum_perm.
  by rewrite Hp.
Qed.

(** The aggregated value only depends on the set of subgroup sums. *)
Lemma spec_aggregated_value_ext records records' v :
  (∀ y, y ∈ subgroup_sums records v ↔ y ∈ subgroup_sums records' v) →
  spec_aggregated_value records v = spec_aggregated_value records' v.
Proof.
  intros Hiff. unfold spec_aggregated_value.
  destruct (subgroup_sums records v) as [|x xs],
           (subgroup_sums records' v) as [|y ys].
  - done.
  - assert (y ∈ @nil Z) as Hy by (apply Hiff; left). by apply elem_of_nil in Hy.
  - assert (x ∈ @nil Z) as Hx by (apply Hiff; left). by apply elem_of_nil in Hx.
  - f_equal. eapply is_max_of_unique; [apply foldr_max_is_max..|done].
Qed.

Lemma spec_aggregated_value_perm records records' v :
  records ≡ₚ records' →
  spec_aggregated_value records v = spec_aggregated_value records' v.
Proof.
  intros Hp. apply spec_aggregated_value_ext. intros y.
  rewrite !elem_of_subgroup_sums.
  split; intros (s & Hin & ->); exists s.
  - split; [by rewrite <- Hp | by apply subgroup_sum_perm].
  - split; [by rewrite Hp | symmetry; by apply subgroup_sum_perm].
Qed.

Lemma capped_value_perm store store' cap v :
  store ≡ₚ store' → capped_value store cap v = capped_value store' cap v.
Proof.
  intros Hp. unfold capped_value.
  rewrite (spec_aggregated_value_perm _ (values_list_row <$> store')); [done|].
  by rewrite Hp.
Qed.

Lemma capped_value_frame store store' cap v :
  qs_rows store (stock_for_variants [v]) = qs_rows store' (stock_for_variants [v]) →
  capped_value store cap v = capped_value store' cap v.
Proof.
  intros Heq. unfold capped_value.
  rewrite <- !(spec_aggregated_value_stock_for_variants _ [v] v) by left.
  by rewrite Heq.
Qed.

Lemma capped_value_add_row store cap r v :
  0 ≤ available_quantity r →
  capped_value store cap v ≤ capped_value (store ++ [r]) cap v.
Proof.
  intros Hq. unfold capped_value. rewrite fmap_app.
  change (values_list_row <$> [r]) with [values_list_row r].
  set (records := values_list_row <$> store).
  destruct (decide (v ∈ record_item <$> records)) as [Hv|Hv].
  - destruct (spec_aggregated_value_Some records v Hv) as (m & -> & [Hm _]).
    destruct (spec_aggregated_value_Some (records ++ [values_list_row r]) v)
      as (m' & -> & [_ Hle]).
    { rewrite fmap_app. apply elem_of_app. by left. }
    simpl. apply elem_of_subgroup_sums in Hm as (s & Hs & ->).
    assert (subgroup_sum (records ++ [values_list_row r]) v s ≤ m') as Hnew.
    { apply Hle, elem_of_subgroup_sums. exists s. split; [|done].
      rewrite fmap_app. apply elem_of_app. by left. }
    rewrite subgroup_sum_snoc in Hnew.
    change (record_quantity (values_list_row r)) with (available_quantity r) in Hnew.
    destruct (decide _) in Hnew; lia.
  - rewrite (spec_aggregated_value_None records v Hv). simpl.
    destruct (decide (v = product_variant_id r)) as [->|Hne].
    + destruct (spec_aggregated_value_Some (records ++ [values_list_row r])
                  (product_variant_id r)) as (m' & -> & [_ Hle]).
      { rewrite fmap_app. apply elem_of_app. right. left. }
      simpl.
      assert (subgroup_sum (records ++ [values_list_row r])
                (product_variant_id r) (warehouse__shipping_zones r) ≤ m') as Hnew.
      { apply Hle, elem_of_subgroup_sums. eexists. split; [|done].
        rewrite fmap_app. apply elem_of_app. right. left. }
      rewrite subgroup_sum_snoc, subgroup_sum_absent in Hnew.
      * change (record_quantity (values_list_row r)) with (available_quantity r) in Hnew.
        rewrite decide_True in Hnew by done. lia.
      * intros Hin. apply Hv, elem_of_record_item. eauto.
    + rewrite spec_aggregated_value_None; [done|].
      rewrite fmap_app, elem_of_app. intros [?|Hin]; [done|].
      apply list_elem_of_singleton in Hin. done.
Qed.

Lemma filter_iff_in {A} (P Q : A → Prop)
    `{∀ x, Decision (P x)} `{∀ x, Decision (Q x)} (l : list A) :
  (∀ x, x ∈ l → P x ↔ Q x) → filter P l = filter Q l.
Proof.
  induction l as [|x l IH]; intros Hiff; [done|].
  assert (filter P l = filter Q l) as Hl
    by (apply IH; intros y Hy; apply Hiff; by right).
  assert (P x ↔ Q x) as Hx by (apply Hiff; left).
  rewrite !filter_cons, Hl.
  destruct (decide (P x)), (decide (Q x)); tauto.
Qed.

Lemma quantities_of_item store v :
  record_quantity <$> records_of_item (values_list_row <$> store) v
  = available_quantity <$> filter (λ r, product_variant_id r = v) store.
Proof.
  unfold records_of_item. induction store as [|r store IH]; [done|].
  rewrite fmap_cons, !filter_cons.
  change (record_item (values_list_row r)) with (product_variant_id r).
  destruct (decide (product_variant_id r = v)); [|done].
  rewrite !fmap_cons, IH. done.
Qed.

Lemma capped_value_single_zone store cap v s :
  (∀ r, r ∈ store → product_variant_id r = v → warehouse__shipping_zones r = s) →
  capped_value store cap v
  = Z.min (Zsum (available_quantity <$> filter (λ r, product_variant_id r = v) store))
          cap.
Proof.
  intros Hs. unfold capped_value. rewrite <- quantities_of_item.
  set (records := values_list_row <$> store).
  assert (∀ x, x ∈ records → record_item x = v → record_subgroup x = s) as Hs'.
  { intros x (r & -> & Hr)%list_elem_of_fmap Hx. by apply Hs. }
  assert (subgroup_sum records v s
          = Zsum (record_quantity <$> records_of_item records v)) as Hsum.
  { unfold subgroup_sum, records_of_pair, records_of_item. do 2 f_equal.
    apply filter_iff_in. intros x Hx. split; [tauto|]. intros Hv. eauto. }
  destruct (decide (v ∈ record_item <$> records)) as [Hv|Hv].
  - destruct (spec_aggregated_value_Some records v Hv) as (m & -> & [Hm _]).
    simpl. apply elem_of_subgroup_sums in Hm as (s' & Hin & ->).
    apply list_elem_of_fmap in Hin as (x & Hx & Hin).
    assert (s' = s) as ->; [|by rewrite Hsum].
    destruct x as [[v0 s0] q0]. unfold record_pair in Hx. simpl in Hx.
    injection Hx as -> ->. by apply (Hs' (v0, s0, q0)).
  - rewrite spec_aggregated_value_None by done. simpl.
    destruct (records_of_item records v) as [|x xs] eqn:Hrec; [done|].
    assert (x ∈ records_of_item records v) as [Hx Hin]%list_elem_of_filter
      by (rewrite Hrec; left).
    destruct Hv. apply list_elem_of_fmap. by exists x.
Qed.
End table_facts.

(** X3.  The order in which the table yields its rows is irrelevant: on two
    tables holding the same rows in different orders, [batch_load] returns the
    same values and sends the same queries. *)
Theorem X3_row_order_is_irrelevant (store store' : list StockRow) cap
    (keys : list VariantIdAndShippingZone) log :
  store ≡ₚ store' →
  batch_load store cap keys log = batch_load store' cap keys log.
Proof.
  intros Hp. rewrite !batch_load_spec. do 2 f_equal.
  apply list_fmap_ext. intros i key _. by apply capped_value_perm.
Qed.

Lemma X3_row_order_is_irrelevant_witness :
  store_EU_US ≡ₚ [row 1 20 "US" 7; row 1 10 "EU" 5]
  ∧ batch_load store_EU_US 50 [(1, Some "EU"); (2, None)] []
    = batch_load [row 1 20 "US" 7; row 1 10 "EU" 5] 50 [(1, Some "EU"); (2, None)] [].
Proof.
  assert (store_EU_US ≡ₚ [row 1 20 "US" 7; row 1 10 "EU" 5]) as Hp
    by apply perm_swap.
  split; [exact Hp|].
  apply (X3_row_order_is_irrelevant store_EU_US
           [row 1 20 "US" 7; row 1 10 "EU" 5] 50 [(1, Some "EU"); (2, None)] []).
  exact Hp.
Defined.

(** X4.  The value returned for a key depends on the rows of the key's
    variant only: two tables that yield the same rows for the variant give the
    key the same value, whatever else the batch asks for. *)
Theorem X4_rows_of_other_variants_are_irrelevant (store store' : list StockRow)
    cap (keys : list VariantIdAndShippingZone) log (i : nat) v z :
  keys !! i = Some (v, z) →
  qs_rows store (stock_for_variants [v]) = qs_rows store' (stock_for_variants [v]) →
  ∃ results log1 results' log2 r,
    batch_load store cap keys log = Some (results, log1)
    ∧ batch_load store' cap keys log = Some (results', log2)
    ∧ results !! i = Some r ∧ results' !! i = Some r.
Proof.
  intros Hkey Hrows. do 5 eexists. rewrite !batch_load_spec.
  split; [done|]. split; [done|]. rewrite !list_lookup_fmap, Hkey. simpl.
  split; [done|]. f_equal. symmetry. by apply capped_value_frame.
Qed.

Lemma X4_rows_of_other_variants_are_irrelevant_witness :
  [(2, None); (1, Some "EU")] !! 1%nat = Some (1, Some "EU")
  ∧ qs_rows store_EU_US (stock_for_variants [1])
    = qs_rows (row 2 10 "EU" 9 :: store_EU_US) (stock_for_variants [1])
  ∧ ∃ results log1 results' log2 r,
      batch_load store_EU_US 50 [(2, None); (1, Some "EU")] [] = Some (results, log1)
      ∧ batch_load (row 2 10 "EU" 9 :: store_EU_US) 50 [(2, None); (1, Some "EU")] []
        = Some (results', log2)
      ∧ results !! 1%nat = Some r ∧ results' !! 1%nat = Some r.
Proof.
  split; [reflexivity|]. split; [reflexivity|].
  apply (X4_rows_of_other_variants_are_irrelevant store_EU_US
           (row 2 10 "EU" 9 :: store_EU_US) 50 [(2, None); (1, Some "EU")] []
           1 1 (Some "EU")); reflexivity.
Defined.

(** X5.  A further row with a non-negative available quantity never lowers
    an answer: position by position, the values returned on the larger table
    are at least those returned on the smaller one. *)
Theorem X5_more_stock_never_lowers_an_answer (store : list StockRow) cap r
    (keys : list VariantIdAndShippingZone) log :
  0 ≤ available_quantity r →
  ∃ results log1 results' log2,
    batch_load store cap keys log = Some (results, log1)
    ∧ batch_load (store ++ [r]) cap keys log = Some (results', log2)
    ∧ Forall2 Z.le results results'.
Proof.
  intros Hq. do 4 eexists. rewrite !batch_load_spec.
  split; [done|]. split; [done|].
  apply Forall2_fmap, Forall_Forall2_diag, Forall_forall.
  intros key _. by apply capped_value_add_row.
Qed.

Lemma X5_more_stock_never_lowers_an_answer_witness :
  0 ≤ available_quantity (row 1 20 "US" 7)
  ∧ ∃ results log1 results' log2,
      batch_load store_EU 50 [(1, Some "EU"); (2, None)] [] = Some (results, log1)
      ∧ batch_load (store_EU ++ [row 1 20 "US" 7]) 50 [(1, Some "EU"); (2, None)] []
        = Some (results', log2)
      ∧ Forall2 Z.le results results'.
Proof.
  split; [simpl; lia|].
  apply (X5_more_stock_never_lowers_an_answer store_EU 50 (row 1 20 "US" 7)
           [(1, Some "EU"); (2, None)] []).
  simpl. lia.
Defined.

(** X6.  When all the rows of a variant carry the same zone id (NULL
    included), the key of that variant is answered the total of the variant's
    available quantities, capped. *)
Theorem X6_single_zone_gives_the_capped_total (store : list StockRow) cap
    (keys : list VariantIdAndShippingZone) log (i : nat) v z s :
  keys !! i = Some (v, z) →
  Forall (λ r, product_variant_id r = v → warehouse__shipping_zones r = s) store →
  ∃ results log',
    batch_load store cap keys log = Some (results, log')
    ∧ results !! i
      = Some (Z.min (Zsum (available_quantity
                             <$> filter (λ r, product_variant_id r = v) store))
                    cap).
Proof.
  intros Hkey Hs. do 2 eexists. rewrite batch_load_spec. split; [done|].
  rewrite list_lookup_fmap, Hkey. simpl. f_equal.
  apply (capped_value_single_zone _ _ _ s).
  pose proof (proj1 (Forall_forall _ _) Hs) as Hall.
  intros r Hr. by apply Hall.
Qed.

Lemma X6_single_zone_gives_the_capped_total_witness :
  [(1, Some "EU")] !! 0%nat = Some (1, Some "EU")
  ∧ Forall (λ r, product_variant_id r = 1 → warehouse__shipping_zones r = Some 10)
           [row 1 10 "EU" 5; row 2 20 "US" 4; row 1 10 "EU" 3]
  ∧ ∃ results log',
      batch_load [row 1 10 "EU" 5; row 2 20 "US" 4; row 1 10 "EU" 3] 50
                 [(1, Some "EU")] []
      = Some (results, log')
      ∧ results !! 0%nat
        = Some (Z.min (Zsum (available_quantity
                               <$> filter (λ r, product_variant_id r = 1)
                                     [row 1 10 "EU" 5; row 2 20 "US" 4;
                                      row 1 10 "EU" 3]))
                      50).
Proof.
  assert (Forall (λ r, product_variant_id r = 1 → warehouse__shipping_zones r = Some 10)
                 [row 1 10 "EU" 5; row 2 20 "US" 4; row 1 10 "EU" 3]) as Hs
    by (repeat constructor; simpl; intros ?; done).
  split; [reflexivity|]. split; [exact Hs|].
  apply (X6_single_zone_gives_the_capped_total
           [row 1 10 "EU" 5; row 2 20 "US" 4; row 1 10 "EU" 3] 50
           [(1, Some "EU")] [] 0 1 (Some "EU") (Some 10)); [reflexivity | exact Hs].
Defined.

(** X7.  A key whose variant has no row at all in the table is answered
    [min 0 cap], under any zone and without error: 0 when the cap is not
    negative, the cap itself when it is. *)
Theorem X7_variant_without_rows_gets_min_zero_cap (store : list StockRow) cap
    (keys : list VariantIdAndShippingZone) log (i : nat) v z :
  keys !! i = Some (v, z) →
  v ∉ product_variant_id <$> store →
  ∃ results log',
    batch_load store cap keys log = Some (results, log')
    ∧ results !! i = Some (Z.min 0 cap).
Proof.
  intros Hkey Hv. do 2 eexists. rewrite batch_load_spec. split; [done|].
  rewrite list_lookup_fmap, Hkey. simpl. unfold capped_value.
  rewrite spec_aggregated_value_None; [done|].
  intros (r & -> & (r' & -> & Hr')%list_elem_of_fmap)%list_elem_of_fmap.
  apply Hv. apply list_elem_of_fmap. by exists r'.
Qed.

Lemma X7_variant_without_rows_gets_min_zero_cap_witness :
  [(1, Some "EU"); (2, None)] !! 1%nat = Some (2, None)
  ∧ (2 ∉ product_variant_id <$> store_US)
  ∧ ∃ results log',
      batch_load store_US 50 [(1, Some "EU"); (2, None)] [] = Some (results, log')
      ∧ results !! 1%nat = Some (Z.min 0 50).
Proof.
  assert (2 ∉ product_variant_id <$> store_US) as Hv
    by (intros Hin%list_elem_of_singleton; discriminate Hin).
  split; [reflexivity|]. split; [exact Hv|].
  apply (X7_variant_without_rows_gets_min_zero_cap store_US 50
           [(1, Some "EU"); (2, None)] [] 1 2 None); [reflexivity | exact Hv].
Defined.

(** X8.  No value returned exceeds the cap, whatever the table holds
    (negative quantities included) and whatever the cap is. *)
Theorem X8_no_answer_exceeds_the_cap (store : list StockRow) cap
    (keys : list VariantIdAndShippingZone) log :
  ∃ results log',
    batch_load store cap keys log = Some (results, log')
    ∧ Forall (λ r, r ≤ cap) results.
Proof.
  do 2 eexists. rewrite batch_load_spec. split; [done|].
  apply Forall_fmap, Forall_forall. intros key _. simpl.
  unfold capped_value. lia.
Qed.

Lemma defaultdict_getitems_present {K V} `{EqDecision K} (dflt : V)
    (d : list (K * V)) ks :
  Forall (λ k, is_Some (dict_get d k)) ks →
  (defaultdict_getitems dflt d ks).2 = d.
Proof.
  induction 1 as [|k ks [v Hk] _ IH]; [done|].
  simpl. unfold defaultdict_getitem. rewrite Hk.
  by destruct (defaultdict_getitems dflt d ks).
Qed.

(** X9.  The dictionary filled by the loop over the zones (lines 37-41) has
    an entry for exactly the keys of the batch, so the final read of line 43
    finds every key and never stores the [defaultdict] default. *)
Theorem X9_every_key_is_stored_before_the_read (store : list StockRow) cap
    (keys : list VariantIdAndShippingZone) log :
  ∃ by_key log',
    for_each (dict_items (split_by_shipping_zone keys)) (load_zone store cap) [] log
    = Some (by_key, log')
    ∧ (∀ key, is_Some (dict_get by_key key) ↔ key ∈ keys)
    ∧ (defaultdict_getitems 0 by_key keys).2 = by_key.
Proof.
  destruct (for_each_load_zone store cap
              (dict_items (split_by_shipping_zone keys)) [] log
              (split_by_shipping_zone_nonempty keys))
    as (by_key & Hrun & Hget).
  assert (∀ key, is_Some (dict_get by_key key) ↔ key ∈ keys) as Hdom.
  { intros [v z]. rewrite Hget. simpl. destruct (decide _) as [Hex|Hnex].
    - split; [intros _|by eauto].
      apply Exists_exists in Hex as ([z' ids] & Hin & Hz & Hv). simpl in *.
      subst z'. apply split_by_shipping_zone_items in Hin as [_ ->].
      by apply elem_of_requested_under.
    - split; [by intros [? ?]|]. intros Hin. destruct Hnex.
      apply Exists_exists. exists (z, requested_under keys z). split.
      + unfold dict_items. apply dict_get_Some_elem.
        rewrite split_by_shipping_zone_get, decide_True; [done|].
        apply list_elem_of_fmap. by exists (v, z).
      + split; [done|]. by apply elem_of_requested_under. }
  exists by_key. eexists. split; [exact Hrun|]. split; [exact Hdom|].
  apply defaultdict_getitems_present, Forall_forall. intros key Hkey.
  by apply Hdom.
Qed.

(** X10.  [batch_load] hands each key the quantity that
    [batch_load_shipping_zone] pairs with the key's variant when called, as in
    the loop of lines 37-41, with the key's zone and the ids requested under
    that zone; no other pair of that call carries the variant with a different
    quantity. *)
Theorem X10_answers_come_from_the_zone_load (store : list StockRow) cap
    (keys : list VariantIdAndShippingZone) log (i : nat) v z :
  keys !! i = Some (v, z) →
  ∃ results log' quantities log1 r,
    batch_load store cap keys log = Some (results, log')
    ∧ batch_load_shipping_zone store cap z (requested_under keys z) []
      = Some (quantities, log1)
    ∧ results !! i = Some r
    ∧ (v, r) ∈ quantities
    ∧ ∀ r', (v, r') ∈ quantities → r' = r.
Proof.
  intros Hkey. do 5 eexists. rewrite batch_load_spec, batch_load_shipping_zone_spec.
  split; [done|]. split; [done|]. rewrite list_lookup_fmap, Hkey. simpl.
  split; [done|]. split.
  - apply list_elem_of_fmap. exists v. split; [done|].
    apply elem_of_requested_under. by eapply list_elem_of_lookup_2.
  - intros r' (v' & Heq & _)%list_elem_of_fmap. by simplify_eq.
Qed.

Lemma X10_answers_come_from_the_zone_load_witness :
  [(2, None); (1, Some "EU")] !! 1%nat = Some (1, Some "EU")
  ∧ ∃ results log' quantities log1 r,
      batch_load store_EU_US 6 [(2, None); (1, Some "EU")] [] = Some (results, log')
      ∧ batch_load_shipping_zone store_EU_US 6 (Some "EU")
          (requested_under [(2, None); (1, Some "EU")] (Some "EU")) []
        = Some (quantities, log1)
      ∧ results !! 1%nat = Some r
      ∧ (1, r) ∈ quantities
      ∧ ∀ r', (1, r') ∈ quantities → r' = r.
Proof.
  split; [reflexivity|].
  apply (X10_answers_come_from_the_zone_load store_EU_US 6
           [(2, None); (1, Some "EU")] [] 1 1 (Some "EU")); reflexivity.
Defined.
